(** * Teseo Android HAL: the device orchestrator and its location model

    A shallow embedding of [stm::device::AbstractDevice]
    (src/device/AbstractDevice.cpp) together with the parts of
    [stm::Location] (teseo/model/Location.h) and of the
    [LocServiceProxy::gps] surface (teseo/LocServiceProxy.h) it relies on.

    The device is modelled as a record of its data members.  Every call it
    makes on a collaborator (the logger, the location-service proxy, the
    stream, the decoder, the slots of its signals) is appended to a trace,
    so that the order of side effects can be stated.  Dereferencing a null
    [stream] or [decoder] pointer ends the run in [NullDeref], carrying the
    trace of what had already been done. *)

From Stdlib Require Import ZArith List String Bool Lia.
From Stdlib Require Import Floats.PrimFloat Floats.SpecFloat.
Import ListNotations.
Local Open Scope string_scope.
Local Open Scope list_scope.
Local Open Scope Z_scope.

(** ** Scalar types of the platform headers *)

(** [typedef int64_t GpsUtcTime;] (hardware/gps.h): milliseconds since the
    epoch.  The device only stores and forwards it. *)
Definition GpsUtcTime := Z.

(** C++ [double]: an IEEE 754 binary64 value. *)
Definition double := PrimFloat.float.

(** C++ [float]: an IEEE 754 binary32 value, kept as its sign, mantissa and
    exponent.  The device only stores and forwards it. *)
Definition float32 := SpecFloat.spec_float.

(** ** Location (teseo/model/Location.h) *)

Module Location.

(** The private data members of [class Location], in declaration order. *)
Record t := mk {
  _latitude : double;
  _longitude : double;
  hasLatLong : bool;
  _altitude : double;
  hasAltitude : bool;
  _speed : float32;
  hasSpeed : bool;
  _bearing : float32;
  hasBearing : bool;
  _accuracy : float32;
  hasAccuracy : bool;
  _timestamp : GpsUtcTime
}.

(** Modelled from the spec: the bodies of the member functions of
    [Location] (Location.cpp) are not available; only
    their declarations and doc comments in Location.h are.  Each
    definition below follows the header's doc comment and section 3 of
    the specification: every one of {lat/long pair, altitude, speed,
    bearing, accuracy} carries its own validity flag, invalidation is
    explicit and field-granular, and the timestamp is always set. *)

(** Modelled from the spec: [Location::Location()], a fresh fix with no
    valid field. *)
Definition new : t :=
  mk 0%float 0%float false 0%float false
     (S754_zero false) false (S754_zero false) false (S754_zero false) false 0.

(** Modelled from the spec: "Get location validity"; the whole-fix
    predicate asks for latitude/longitude validity. *)
Definition locationValidity (l : t) : bool := hasLatLong l.

(** Modelled from the spec: "Get altitude validity". *)
Definition altitudeValidity (l : t) : bool := hasAltitude l.

(** Modelled from the spec: "Get speed validity". *)
Definition speedValidity (l : t) : bool := hasSpeed l.

(** Modelled from the spec: "Get bearing validity". *)
Definition bearingValidity (l : t) : bool := hasBearing l.

(** Modelled from the spec: "Get accuracy validity". *)
Definition accuracyValidity (l : t) : bool := hasAccuracy l.

(** Modelled from the spec: "Invalidate location". *)
Definition invalidateLocation (l : t) : t :=
  mk (_latitude l) (_longitude l) false
     (_altitude l) (hasAltitude l) (_speed l) (hasSpeed l)
     (_bearing l) (hasBearing l) (_accuracy l) (hasAccuracy l)
     (_timestamp l).

(** Modelled from the spec: "Invalidate altitude". *)
Definition invalidateAltitude (l : t) : t :=
  mk (_latitude l) (_longitude l) (hasLatLong l)
     (_altitude l) false (_speed l) (hasSpeed l)
     (_bearing l) (hasBearing l) (_accuracy l) (hasAccuracy l)
     (_timestamp l).

(** Modelled from the spec: "Invalidate speed". *)
Definition invalidateSpeed (l : t) : t :=
  mk (_latitude l) (_longitude l) (hasLatLong l)
     (_altitude l) (hasAltitude l) (_speed l) false
     (_bearing l) (hasBearing l) (_accuracy l) (hasAccuracy l)
     (_timestamp l).

(** Modelled from the spec: "Invalidate bearing". *)
Definition invalidateBearing (l : t) : t :=
  mk (_latitude l) (_longitude l) (hasLatLong l)
     (_altitude l) (hasAltitude l) (_speed l) (hasSpeed l)
     (_bearing l) false (_accuracy l) (hasAccuracy l)
     (_timestamp l).

(** Modelled from the spec: "Invalidate accuracy". *)
Definition invalidateAccuracy (l : t) : t :=
  mk (_latitude l) (_longitude l) (hasLatLong l)
     (_altitude l) (hasAltitude l) (_speed l) (hasSpeed l)
     (_bearing l) (hasBearing l) (_accuracy l) false
     (_timestamp l).

(** Modelled from the spec: "Invalidate all location data". *)
Definition invalidateAll (l : t) : t :=
  invalidateAccuracy
    (invalidateBearing
       (invalidateSpeed (invalidateAltitude (invalidateLocation l)))).

(** Modelled from the spec: "Set and get altitude value"; setting a field
    makes it valid. *)
Definition altitude (value : double) (l : t) : double * t :=
  (value,
   mk (_latitude l) (_longitude l) (hasLatLong l)
      value true (_speed l) (hasSpeed l)
      (_bearing l) (hasBearing l) (_accuracy l) (hasAccuracy l)
      (_timestamp l)).

(** Modelled from the spec: "Set and get speed value". *)
Definition speed (value : float32) (l : t) : float32 * t :=
  (value,
   mk (_latitude l) (_longitude l) (hasLatLong l)
      (_altitude l) (hasAltitude l) value true
      (_bearing l) (hasBearing l) (_accuracy l) (hasAccuracy l)
      (_timestamp l)).

(** Modelled from the spec: "Set and get bearing value". *)
Definition bearing (value : float32) (l : t) : float32 * t :=
  (value,
   mk (_latitude l) (_longitude l) (hasLatLong l)
      (_altitude l) (hasAltitude l) (_speed l) (hasSpeed l)
      value true (_accuracy l) (hasAccuracy l)
      (_timestamp l)).

(** Modelled from the spec: "Set and get accuracy value". *)
Definition accuracy (value : float32) (l : t) : float32 * t :=
  (value,
   mk (_latitude l) (_longitude l) (hasLatLong l)
      (_altitude l) (hasAltitude l) (_speed l) (hasSpeed l)
      (_bearing l) (hasBearing l) value true
      (_timestamp l)).

(** Modelled from the spec: "Set and get timestamp value". *)
Definition timestamp (value : GpsUtcTime) (l : t) : GpsUtcTime * t :=
  (value,
   mk (_latitude l) (_longitude l) (hasLatLong l)
      (_altitude l) (hasAltitude l) (_speed l) (hasSpeed l)
      (_bearing l) (hasBearing l) (_accuracy l) (hasAccuracy l)
      value).

(** Modelled from the spec: the one-argument setters
    [latitude(double)] and [longitude(double)] that
    [AbstractDevice::setLocation] calls; Location.h at hand declares the
    two-argument [location(double, double)] only.  Each stores its
    coordinate and marks the lat/long pair valid. *)
Definition latitude (value : double) (l : t) : double * t :=
  (value,
   mk value (_longitude l) true
      (_altitude l) (hasAltitude l) (_speed l) (hasSpeed l)
      (_bearing l) (hasBearing l) (_accuracy l) (hasAccuracy l)
      (_timestamp l)).

(** Modelled from the spec: see [latitude]. *)
Definition longitude (value : double) (l : t) : double * t :=
  (value,
   mk (_latitude l) value true
      (_altitude l) (hasAltitude l) (_speed l) (hasSpeed l)
      (_bearing l) (hasBearing l) (_accuracy l) (hasAccuracy l)
      (_timestamp l)).

(** The five independently validated fields of a fix. *)
Inductive Field := LatLong | Altitude | Speed | Bearing | Accuracy.

(** What a field stores. *)
Inductive Stored :=
| StoredPair (lat lon : double)
| StoredDouble (v : double)
| StoredFloat (v : float32).

Definition validity (f : Field) (l : t) : bool :=
  match f with
  | LatLong => locationValidity l
  | Altitude => altitudeValidity l
  | Speed => speedValidity l
  | Bearing => bearingValidity l
  | Accuracy => accuracyValidity l
  end.

Definition stored (f : Field) (l : t) : Stored :=
  match f with
  | LatLong => StoredPair (_latitude l) (_longitude l)
  | Altitude => StoredDouble (_altitude l)
  | Speed => StoredFloat (_speed l)
  | Bearing => StoredFloat (_bearing l)
  | Accuracy => StoredFloat (_accuracy l)
  end.

Definition invalidate (f : Field) (l : t) : t :=
  match f with
  | LatLong => invalidateLocation l
  | Altitude => invalidateAltitude l
  | Speed => invalidateSpeed l
  | Bearing => invalidateBearing l
  | Accuracy => invalidateAccuracy l
  end.

End Location.

(** ** NmeaMessage, streams and decoders *)

(** Modelled from the spec: teseo/model/NmeaMessage.h is not part of the
    sources at hand.  Section 3: "an immutable decoded/raw sentence (text
    payload + originating timestamp)". *)
Record NmeaMessage := mkNmea {
  nmea_text : string;
  nmea_timestamp : GpsUtcTime
}.

(** The object a non-null [stream::IStream *] points to. *)
Inductive IStream := StreamAt (addr : nat).

(** The object a non-null [decoder::IDecoder *] points to. *)
Inductive IDecoder := DecoderAt (addr : nat).

(** A pointer is [None] when it is [nullptr]. *)
Definition nullptr {A : Type} : option A := None.

(** ** The trace of calls made on collaborators *)

Inductive LogPriority := LOG_INFO | LOG_WARN | LOG_ERROR.

Inductive Event :=
| ALOG (p : LogPriority) (msg : string)
  (* LocServiceProxy::gps *)
| acquireWakelock
| releaseWakelock
| requestUtcTime
| sendNmea (timestamp : GpsUtcTime) (nmea : NmeaMessage)
| sendLocationUpdate (loc : Location.t)
  (* another slot connected to onNmea / locationUpdate *)
| nmeaHandler (id : nat) (timestamp : GpsUtcTime) (nmea : NmeaMessage)
| locationHandler (id : nat) (loc : Location.t)
  (* decoder-> and stream-> *)
| decoder_start (d : IDecoder)
| decoder_stop (d : IDecoder)
| stream_startReading (s : IStream)
| stream_stopReading (s : IStream)
| stream_onNewBytes_connect (s : IStream) (d : IDecoder)
  (* LocServiceProxy::gps::getSignals() *)
| gps_start_connect
| gps_stop_connect.

Definition Trace := list Event.

Definition is_log (e : Event) : bool :=
  match e with ALOG _ _ => true | _ => false end.

(** The calls of a trace that are not log lines. *)
Definition side_effects (tr : Trace) : Trace :=
  filter (fun e => negb (is_log e)) tr.

Definition is_acquireWakelock (e : Event) : bool :=
  match e with acquireWakelock => true | _ => false end.

(** How many times the wake lock was acquired along a trace. *)
Definition wakelock_acquisitions (tr : Trace) : nat :=
  List.length (filter is_acquireWakelock tr).

(** The fixes handed to [LocServiceProxy::gps::sendLocationUpdate]. *)
Fixpoint published_locations (tr : Trace) : list Location.t :=
  match tr with
  | [] => []
  | sendLocationUpdate l :: tr' => l :: published_locations tr'
  | _ :: tr' => published_locations tr'
  end.

(** The (timestamp, sentence) pairs handed to
    [LocServiceProxy::gps::sendNmea]. *)
Fixpoint published_nmea (tr : Trace) : list (GpsUtcTime * NmeaMessage) :=
  match tr with
  | [] => []
  | sendNmea t n :: tr' => (t, n) :: published_nmea tr'
  | _ :: tr' => published_nmea tr'
  end.

(** ** Signals *)

Module Signal.

(** Modelled from the spec: teseo/utils/Signal.h is not part of the
    sources at hand.  Section 4.1: [subscribe] registers a handler,
    [publish] "invokes every currently-registered handler synchronously,
    in registration order, on the caller's thread".  A signal is the list
    of its slots, oldest first. *)
Definition t (Slot : Type) := list Slot.

Definition empty {Slot : Type} : t Slot := [].

Definition connect {Slot : Type} (sig : t Slot) (s : Slot) : t Slot :=
  sig ++ [s].

Definition emit {Slot : Type} (invoke : Slot -> Event) (sig : t Slot)
  : Trace :=
  map invoke sig.

End Signal.

(** A slot of [onNmea]: [LocServiceProxy::gps::sendNmea], or some other
    handler. *)
Inductive NmeaSlot := slot_sendNmea | slot_nmeaHandler (id : nat).

(** A slot of [locationUpdate]: [LocServiceProxy::gps::sendLocationUpdate],
    or some other handler. *)
Inductive LocationSlot :=
| slot_sendLocationUpdate
| slot_locationHandler (id : nat).

Definition invoke_nmea (t : GpsUtcTime) (n : NmeaMessage) (s : NmeaSlot)
  : Event :=
  match s with
  | slot_sendNmea => sendNmea t n
  | slot_nmeaHandler id => nmeaHandler id t n
  end.

Definition invoke_location (l : Location.t) (s : LocationSlot) : Event :=
  match s with
  | slot_sendLocationUpdate => sendLocationUpdate l
  | slot_locationHandler id => locationHandler id l
  end.

(** ** The states of section 4.4, read off a trace *)

Inductive NavState := Idle | Navigating.

(** "Idle (decoder/stream stopped), Navigating (decoder/stream started)":
    the state follows the last start or stop of the stream reading. *)
Definition nav_step (st : NavState) (e : Event) : NavState :=
  match e with
  | stream_startReading _ => Navigating
  | stream_stopReading _ => Idle
  | _ => st
  end.

Definition nav_state (tr : Trace) : NavState := fold_left nav_step tr Idle.

(** ** AbstractDevice (src/device/AbstractDevice.cpp) *)

Module AbstractDevice.

(** The data members the member functions read and write.  The class
    declaration (AbstractDevice.h) is not part of the sources at hand;
    the members are those AbstractDevice.cpp names. *)
Record t := mk {
  stream : option IStream;
  decoder : option IDecoder;
  timestamp : GpsUtcTime;
  location : Location.t;
  onNmea : Signal.t NmeaSlot;
  locationUpdate : Signal.t LocationSlot
}.

(** *** Member functions as state transformers

    A member function runs on [*this] and on the trace so far.  It either
    returns, with the new [*this] and the extended trace, or stops at a
    null pointer dereference. *)

Inductive Outcome (A : Type) : Type :=
| Returns (a : A) (self : t) (tr : Trace)
| NullDeref (tr : Trace).
Arguments Returns {A} a self tr.
Arguments NullDeref {A} tr.

Definition M (A : Type) : Type := t -> Trace -> Outcome A.

Definition ret {A : Type} (a : A) : M A :=
  fun self tr => Returns a self tr.

Definition bind {A B : Type} (m : M A) (k : A -> M B) : M B :=
  fun self tr =>
    match m self tr with
    | Returns a self' tr' => k a self' tr'
    | NullDeref tr' => NullDeref tr'
    end.

Declare Scope device_scope.
Delimit Scope device_scope with dev.
Notation "x <- m ;; k" := (bind m (fun x => k))
  (at level 61, m at next level, right associativity) : device_scope.
Notation "m ;; k" := (bind m (fun _ => k))
  (at level 61, right associativity) : device_scope.
Local Open Scope device_scope.

(** Read [*this]. *)
Definition this : M t := fun self tr => Returns self self tr.

(** Assign to data members. *)
Definition assign (f : t -> t) : M unit :=
  fun self tr => Returns tt (f self) tr.

(** One call on a collaborator. *)
Definition call (e : Event) : M unit :=
  fun self tr => Returns tt self (tr ++ [e]).

(** Invoking a signal: its slots are called in connection order. *)
Definition emit (es : Trace) : M unit :=
  fun self tr => Returns tt self (tr ++ es).

(** [p->...]: undefined behaviour when [p] is [nullptr]. *)
Definition deref {P : Type} (get : t -> option P) : M P :=
  fun self tr =>
    match get self with
    | Some obj => Returns obj self tr
    | None => NullDeref tr
    end.

Definition ALOGE (msg : string) : M unit := call (ALOG LOG_ERROR msg).
Definition ALOGW (msg : string) : M unit := call (ALOG LOG_WARN msg).
Definition ALOGI (msg : string) : M unit := call (ALOG LOG_INFO msg).

Definition set_stream (s : option IStream) (self : t) : t :=
  mk s (decoder self) (timestamp self) (location self)
     (onNmea self) (locationUpdate self).

Definition set_decoder (d : option IDecoder) (self : t) : t :=
  mk (stream self) d (timestamp self) (location self)
     (onNmea self) (locationUpdate self).

Definition set_timestamp (v : GpsUtcTime) (self : t) : t :=
  mk (stream self) (decoder self) v (location self)
     (onNmea self) (locationUpdate self).

Definition set_location (l : Location.t) (self : t) : t :=
  mk (stream self) (decoder self) (timestamp self) l
     (onNmea self) (locationUpdate self).

(** [location.f(...)] for a member function [f] of [Location] that
    returns nothing. *)
Definition on_location (f : Location.t -> Location.t) : M unit :=
  assign (fun self => set_location (f (location self)) self).

(** [location.f(v)] for a setter, whose returned value is dropped. *)
Definition location_set {V : Type} (f : Location.t -> V * Location.t)
  : M unit :=
  on_location (fun l => snd (f l)).

(** [AbstractDevice::AbstractDevice()].  [timestamp] is left
    uninitialised by the constructor: its indeterminate value is the
    argument.  The result is the new object and the calls made. *)
Definition new (indeterminate : GpsUtcTime) : t * Trace :=
  (mk nullptr nullptr indeterminate Location.new
      (Signal.connect Signal.empty slot_sendNmea)
      (Signal.connect Signal.empty slot_sendLocationUpdate),
   [gps_start_connect; gps_stop_connect]).

Definition connectStreamToDecoder : M unit :=
  self <- this ;;
  match stream self with
  | None => ALOGE "Stream isn't set, won't connect."
  | Some s =>
      match decoder self with
      | None => ALOGE "Decoder isn't set, won't connect."
      | Some d => call (stream_onNewBytes_connect s d)
      end
  end.

Definition setStream (s : option IStream) : M unit :=
  match s with
  | None => ALOGW "Setting stream to nullptr"
  | Some _ => ret tt
  end ;;
  assign (set_stream s).

Definition setDecoder (d : option IDecoder) : M unit :=
  match d with
  | None => ALOGW "Setting decoder to nullptr"
  | Some _ => ret tt
  end ;;
  assign (set_decoder d).

Definition update : M unit :=
  self <- this ;;
  if Location.locationValidity (location self)
  then emit (Signal.emit (invoke_location (location self))
                         (locationUpdate self))
  else ret tt.

Definition start : M Z :=
  ALOGI "Start navigation" ;;
  call acquireWakelock ;;
  call requestUtcTime ;;
  d <- deref decoder ;;
  call (decoder_start d) ;;
  s <- deref stream ;;
  call (stream_startReading s) ;;
  ret 0.

Definition stop : M Z :=
  ALOGI "Stop navigation" ;;
  s <- deref stream ;;
  call (stream_stopReading s) ;;
  d <- deref decoder ;;
  call (decoder_stop d) ;;
  call releaseWakelock ;;
  ret 0.

Definition setTimestamp (t : GpsUtcTime) : M unit :=
  assign (set_timestamp t) ;;
  location_set (Location.timestamp t).

Definition invalidateLocation : M unit :=
  on_location Location.invalidateLocation.

Definition invalidateAltitude : M unit :=
  on_location Location.invalidateAltitude.

Definition invalidateSpeed : M unit :=
  on_location Location.invalidateSpeed.

Definition invalidateBearing : M unit :=
  on_location Location.invalidateBearing.

Definition invalidateAccuracy : M unit :=
  on_location Location.invalidateAccuracy.

Definition setLocation (latitude longitude : double) : M unit :=
  location_set (Location.latitude latitude) ;;
  location_set (Location.longitude longitude).

Definition setAltitude (altitude : double) : M unit :=
  location_set (Location.altitude altitude).

Definition setSpeed (speed : float32) : M unit :=
  location_set (Location.speed speed).

Definition setBearing (bearing : float32) : M unit :=
  location_set (Location.bearing bearing).

Definition setAccuracy (accuracy : float32) : M unit :=
  location_set (Location.accuracy accuracy).

Definition emitNmea (nmea : NmeaMessage) : M unit :=
  self <- this ;;
  emit (Signal.emit (invoke_nmea (timestamp self) nmea) (onNmea self)).

(** The invalidate operation of the device for a given field. *)
Definition invalidate (f : Location.Field) : M unit :=
  match f with
  | Location.LatLong => invalidateLocation
  | Location.Altitude => invalidateAltitude
  | Location.Speed => invalidateSpeed
  | Location.Bearing => invalidateBearing
  | Location.Accuracy => invalidateAccuracy
  end.

(** *** Sequences of calls on one device *)

Inductive Call :=
| call_connectStreamToDecoder
| call_setStream (s : option IStream)
| call_setDecoder (d : option IDecoder)
| call_update
| call_start
| call_stop
| call_setTimestamp (t : GpsUtcTime)
| call_invalidateLocation
| call_invalidateAltitude
| call_invalidateSpeed
| call_invalidateBearing
| call_invalidateAccuracy
| call_setLocation (latitude longitude : double)
| call_setAltitude (altitude : double)
| call_setSpeed (speed : float32)
| call_setBearing (bearing : float32)
| call_setAccuracy (accuracy : float32)
| call_emitNmea (nmea : NmeaMessage).

(** Drop the returned value. *)
Definition void {A : Type} (m : M A) : M unit := m ;; ret tt.

Definition exec (c : Call) : M unit :=
  match c with
  | call_connectStreamToDecoder => connectStreamToDecoder
  | call_setStream s => setStream s
  | call_setDecoder d => setDecoder d
  | call_update => update
  | call_start => void start
  | call_stop => void stop
  | call_setTimestamp t => setTimestamp t
  | call_invalidateLocation => invalidateLocation
  | call_invalidateAltitude => invalidateAltitude
  | call_invalidateSpeed => invalidateSpeed
  | call_invalidateBearing => invalidateBearing
  | call_invalidateAccuracy => invalidateAccuracy
  | call_setLocation la lo => setLocation la lo
  | call_setAltitude a => setAltitude a
  | call_setSpeed s => setSpeed s
  | call_setBearing b => setBearing b
  | call_setAccuracy a => setAccuracy a
  | call_emitNmea n => emitNmea n
  end.

Fixpoint run (cs : list Call) : M unit :=
  match cs with
  | [] => ret tt
  | c :: cs' => exec c ;; run cs'
  end.

Definition is_setTimestamp (c : Call) : bool :=
  match c with call_setTimestamp _ => true | _ => false end.

(** The devices a program can hold: built by the constructor, then driven
    through member functions that all returned. *)
Definition reachable (self : t) (tr : Trace) : Prop :=
  exists (indeterminate : GpsUtcTime) (cs : list Call),
    run cs (fst (new indeterminate)) (snd (new indeterminate))
    = Returns tt self tr.

End AbstractDevice.

(** ** Calls of the lifecycle operations, and sample devices *)

(** The calls of [start], in program order. *)
Definition start_calls (d : IDecoder) (s : IStream) : Trace :=
  [ALOG LOG_INFO "Start navigation"; acquireWakelock; requestUtcTime;
   decoder_start d; stream_startReading s].

(** The calls of [stop], in program order. *)
Definition stop_calls (s : IStream) (d : IDecoder) : Trace :=
  [ALOG LOG_INFO "Stop navigation"; stream_stopReading s; decoder_stop d;
   releaseWakelock].

(** A device after [setStream] and [setDecoder] with two objects. *)
Definition attached_device : AbstractDevice.t :=
  AbstractDevice.mk (Some (StreamAt 1)) (Some (DecoderAt 2)) 0 Location.new
    [slot_sendNmea] [slot_sendLocationUpdate].

(** A fix with speed, bearing and accuracy, and no latitude/longitude. *)
Definition partial_fix : Location.t :=
  Location.mk 0%float 0%float false 0%float false
    (S754_finite false 3 (-1)) true (S754_finite false 45 0) true
    (S754_finite false 5 0) true 1000.

(** A fix with latitude/longitude only. *)
Definition position_fix : Location.t :=
  Location.mk 48.125%float 11.5%float true 0%float false
    (S754_zero false) false (S754_zero false) false (S754_zero false) false
    1000.

Definition sample_nmea : NmeaMessage :=
  mkNmea "$GPGGA,123519,4807.038,N,01131.000,E,1,08,0.9,545.4,M,46.9,M,,*47"
         123519.

(** ** Reading a trace and a sequence of calls *)


Definition is_releaseWakelock (e : Event) : bool :=
  match e with releaseWakelock => true | _ => false end.

(** How many times the wake lock was released along a trace. *)
Definition wakelock_releases (tr : Trace) : nat :=
  List.length (filter is_releaseWakelock tr).


Definition is_call_start (c : AbstractDevice.Call) : bool :=
  match c with AbstractDevice.call_start => true | _ => false end.

Definition is_call_stop (c : AbstractDevice.Call) : bool :=
  match c with AbstractDevice.call_stop => true | _ => false end.

(** The calls that only write the in-progress fix or the timestamp:
    [setTimestamp], the five [invalidate...] and the five [set...]. *)
Definition is_data_call (c : AbstractDevice.Call) : bool :=
  match c with
  | AbstractDevice.call_setTimestamp _
  | AbstractDevice.call_invalidateLocation
  | AbstractDevice.call_invalidateAltitude
  | AbstractDevice.call_invalidateSpeed
  | AbstractDevice.call_invalidateBearing
  | AbstractDevice.call_invalidateAccuracy
  | AbstractDevice.call_setLocation _ _
  | AbstractDevice.call_setAltitude _
  | AbstractDevice.call_setSpeed _
  | AbstractDevice.call_setBearing _
  | AbstractDevice.call_setAccuracy _ => true
  | _ => false
  end.

(** A call that does not store [nullptr] in [stream] or [decoder]. *)
Definition keeps_attached (c : AbstractDevice.Call) : bool :=
  match c with
  | AbstractDevice.call_setStream None => false
  | AbstractDevice.call_setDecoder None => false
  | _ => true
  end.

(** The argument of the last [setStream] of a sequence of calls, or [s0]
    when there is none. *)
Fixpoint last_stream (cs : list AbstractDevice.Call) (s0 : option IStream)
  : option IStream :=
  match cs with
  | [] => s0
  | AbstractDevice.call_setStream s :: cs' => last_stream cs' s
  | _ :: cs' => last_stream cs' s0
  end.

(** The argument of the last [setDecoder] of a sequence of calls, or [d0]
    when there is none. *)
Fixpoint last_decoder (cs : list AbstractDevice.Call) (d0 : option IDecoder)
  : option IDecoder :=
  match cs with
  | [] => d0
  | AbstractDevice.call_setDecoder d :: cs' => last_decoder cs' d
  | _ :: cs' => last_decoder cs' d0
  end.

(** The device timestamp after one call that returned, given the one
    before it. *)
Definition timestamp_after (c : AbstractDevice.Call) (t0 : GpsUtcTime)
  : GpsUtcTime :=
  match c with AbstractDevice.call_setTimestamp t1 => t1 | _ => t0 end.

(** The sentences a sequence of calls passes to [emitNmea], in call order,
    each with the argument of the last [setTimestamp] before it, or with
    [t0] when there is none. *)
Fixpoint nmea_log (cs : list AbstractDevice.Call) (t0 : GpsUtcTime)
  : list (GpsUtcTime * NmeaMessage) :=
  match cs with
  | [] => []
  | AbstractDevice.call_setTimestamp t :: cs' => nmea_log cs' t
  | AbstractDevice.call_emitNmea n :: cs' => (t0, n) :: nmea_log cs' t0
  | _ :: cs' => nmea_log cs' t0
  end.

(** * Properties *)

Import AbstractDevice.

(** ** Unfolding member functions *)

Ltac unfold_members :=
  unfold exec, void, connectStreamToDecoder, setStream, setDecoder, update,
    start, stop, setTimestamp, invalidate, invalidateLocation,
    invalidateAltitude, invalidateSpeed, invalidateBearing,
    invalidateAccuracy, setLocation, setAltitude, setSpeed, setBearing,
    setAccuracy, emitNmea, location_set, on_location, ALOGE, ALOGW, ALOGI,
    bind, ret, this, assign, call, emit, deref in *.

Ltac outcome_cases :=
  repeat match goal with
    | H : Returns _ _ _ = Returns _ _ _ |- _ => inversion H; subst; clear H
    | H : NullDeref _ = Returns _ _ _ |- _ => discriminate H
    | H : Returns _ _ _ = NullDeref _ |- _ => discriminate H
    | H : context [match ?x with _ => _ end] |- _ => destruct x eqn:?
    end.

(** ** Traces *)

Lemma side_effects_app (tr1 tr2 : Trace) :
  side_effects (tr1 ++ tr2) = side_effects tr1 ++ side_effects tr2.
Proof. unfold side_effects. apply filter_app. Qed.

Lemma wakelock_acquisitions_app (tr1 tr2 : Trace) :
  wakelock_acquisitions (tr1 ++ tr2)
  = (wakelock_acquisitions tr1 + wakelock_acquisitions tr2)%nat.
Proof.
  unfold wakelock_acquisitions. rewrite filter_app. apply length_app.
Qed.

Lemma published_locations_app (tr1 tr2 : Trace) :
  published_locations (tr1 ++ tr2)
  = published_locations tr1 ++ published_locations tr2.
Proof.
  induction tr1 as [|e tr1 IH]; simpl; [reflexivity|].
  destruct e; simpl; rewrite IH; reflexivity.
Qed.

Lemma published_nmea_app (tr1 tr2 : Trace) :
  published_nmea (tr1 ++ tr2) = published_nmea tr1 ++ published_nmea tr2.
Proof.
  induction tr1 as [|e tr1 IH]; simpl; [reflexivity|].
  destruct e; simpl; rewrite IH; reflexivity.
Qed.

Lemma nav_state_app (tr1 tr2 : Trace) :
  nav_state (tr1 ++ tr2) = fold_left nav_step tr2 (nav_state tr1).
Proof. unfold nav_state. apply fold_left_app. Qed.

(** ** What start and stop do on an attached device *)

Lemma start_attached (self : t) (s : IStream) (d : IDecoder) (tr : Trace) :
  stream self = Some s -> decoder self = Some d ->
  start self tr = Returns 0 self (tr ++ start_calls d s).
Proof.
  intros Hs Hd. unfold_members. rewrite Hd, Hs.
  repeat rewrite <- app_assoc. reflexivity.
Qed.

Lemma stop_attached (self : t) (s : IStream) (d : IDecoder) (tr : Trace) :
  stream self = Some s -> decoder self = Some d ->
  stop self tr = Returns 0 self (tr ++ stop_calls s d).
Proof.
  intros Hs Hd. unfold_members. rewrite Hs, Hd.
  repeat rewrite <- app_assoc. reflexivity.
Qed.

Lemma start_null_decoder (self : t) (tr : Trace) :
  decoder self = None ->
  start self tr
  = NullDeref (tr ++ [ALOG LOG_INFO "Start navigation"; acquireWakelock;
                      requestUtcTime]).
Proof.
  intros Hd. unfold_members. rewrite Hd.
  repeat rewrite <- app_assoc. reflexivity.
Qed.

Lemma start_null_stream (self : t) (d : IDecoder) (tr : Trace) :
  decoder self = Some d -> stream self = None ->
  start self tr
  = NullDeref (tr ++ [ALOG LOG_INFO "Start navigation"; acquireWakelock;
                      requestUtcTime; decoder_start d]).
Proof.
  intros Hd Hs. unfold_members. rewrite Hd, Hs.
  repeat rewrite <- app_assoc. reflexivity.
Qed.

Lemma stop_null_stream (self : t) (tr : Trace) :
  stream self = None ->
  stop self tr = NullDeref (tr ++ [ALOG LOG_INFO "Stop navigation"]).
Proof. intros Hs. unfold_members. rewrite Hs. reflexivity. Qed.

Lemma stop_null_decoder (self : t) (s : IStream) (tr : Trace) :
  stream self = Some s -> decoder self = None ->
  stop self tr
  = NullDeref (tr ++ [ALOG LOG_INFO "Stop navigation"; stream_stopReading s]).
Proof.
  intros Hs Hd. unfold_members. rewrite Hs, Hd.
  repeat rewrite <- app_assoc. reflexivity.
Qed.

(** ** When start and stop return *)

Ltac by_attachment self tr :=
  let s := fresh "s" in
  let d := fresh "d" in
  let Hs := fresh "Hs" in
  let Hd := fresh "Hd" in
  destruct (stream self) as [s|] eqn:Hs;
  destruct (decoder self) as [d|] eqn:Hd;
  [ first [ rewrite (start_attached self s d tr Hs Hd)
          | rewrite (stop_attached self s d tr Hs Hd) ]
  | first [ rewrite (start_null_decoder self tr Hd)
          | rewrite (stop_null_decoder self s tr Hs Hd) ]
  | first [ rewrite (start_null_stream self d tr Hd Hs)
          | rewrite (stop_null_stream self tr Hs) ]
  | first [ rewrite (start_null_decoder self tr Hd)
          | rewrite (stop_null_stream self tr Hs) ] ].

Lemma start_returns_iff (self : t) (tr : Trace) :
  (exists (rc : Z) (self' : t) (tr' : Trace),
      start self tr = Returns rc self' tr')
  <-> stream self <> None /\ decoder self <> None.
Proof.
  by_attachment self tr; split;
    try (intros (rc & self' & tr' & H); discriminate H);
    try (intros [H1 H2]; congruence).
  - intros _. split; discriminate.
  - intros _. eauto.
Qed.

Lemma start_faults_iff (self : t) (tr : Trace) :
  (exists tr' : Trace, start self tr = NullDeref tr')
  <-> stream self = None \/ decoder self = None.
Proof.
  by_attachment self tr; split;
    try (intros [tr' H]; discriminate H);
    try (intros [H|H]; discriminate H);
    try (intros _; eauto; fail).
Qed.

Lemma stop_returns_iff (self : t) (tr : Trace) :
  (exists (rc : Z) (self' : t) (tr' : Trace),
      stop self tr = Returns rc self' tr')
  <-> stream self <> None /\ decoder self <> None.
Proof.
  by_attachment self tr; split;
    try (intros (rc & self' & tr' & H); discriminate H);
    try (intros [H1 H2]; congruence).
  - intros _. split; discriminate.
  - intros _. eauto.
Qed.

Lemma stop_faults_iff (self : t) (tr : Trace) :
  (exists tr' : Trace, stop self tr = NullDeref tr')
  <-> stream self = None \/ decoder self = None.
Proof.
  by_attachment self tr; split;
    try (intros [tr' H]; discriminate H);
    try (intros [H|H]; discriminate H);
    try (intros _; eauto; fail).
Qed.

(** ** What a sequence of calls cannot change *)

Lemma exec_signals (c : Call) (self self' : t) (tr tr' : Trace) (u : unit) :
  exec c self tr = Returns u self' tr' ->
  onNmea self' = onNmea self /\ locationUpdate self' = locationUpdate self.
Proof.
  destruct c; unfold_members; intros H; outcome_cases; simpl; auto.
Qed.

Lemma run_signals (cs : list Call) :
  forall (self self' : t) (tr tr' : Trace) (u : unit),
    run cs self tr = Returns u self' tr' ->
    onNmea self' = onNmea self /\ locationUpdate self' = locationUpdate self.
Proof.
  induction cs as [|c cs IH]; intros self self' tr tr' u H.
  - inversion H; subst. auto.
  - simpl in H. unfold bind at 1 in H.
    destruct (exec c self tr) as [v self1 tr1|tr1] eqn:E; [|discriminate H].
    apply exec_signals in E. apply IH in H.
    destruct E as [E1 E2], H as [H1 H2]. split; congruence.
Qed.

Lemma reachable_signals (self : t) (tr : Trace) :
  reachable self tr ->
  onNmea self = [slot_sendNmea]
  /\ locationUpdate self = [slot_sendLocationUpdate].
Proof.
  intros (ts & cs & H). apply run_signals in H. exact H.
Qed.

Lemma exec_timestamp (c : Call) (self self' : t) (tr tr' : Trace) (u : unit) :
  is_setTimestamp c = false ->
  exec c self tr = Returns u self' tr' ->
  timestamp self' = timestamp self.
Proof.
  destruct c; simpl; intros Hc; try discriminate Hc;
    unfold_members; intros H; outcome_cases; simpl; auto.
Qed.

Lemma run_timestamp (cs : list Call) :
  forall (self self' : t) (tr tr' : Trace) (u : unit),
    forallb (fun c => negb (is_setTimestamp c)) cs = true ->
    run cs self tr = Returns u self' tr' ->
    timestamp self' = timestamp self.
Proof.
  induction cs as [|c cs IH]; intros self self' tr tr' u Hcs H.
  - inversion H; subst. reflexivity.
  - simpl in Hcs. apply andb_true_iff in Hcs. destruct Hcs as [Hc Hcs].
    apply negb_true_iff in Hc.
    simpl in H. unfold bind at 1 in H.
    destruct (exec c self tr) as [v self1 tr1|tr1] eqn:E; [|discriminate H].
    apply (exec_timestamp _ _ _ _ _ _ Hc) in E.
    apply (IH _ _ _ _ _ Hcs) in H. congruence.
Qed.

(** ** Start before the stream and the decoder are attached *)

(** C1 (the code at the failing input).  On a device as the constructor
    leaves it (stream and decoder both [nullptr]), [start] logs, acquires
    the wake lock, requests the UTC time and then dereferences the null
    decoder: it returns no code at all, and side effects have been
    performed.  With a decoder attached and the stream still [nullptr], the
    decoder is started as well before the null stream is dereferenced. *)
Theorem start_unattached_null_dereference
  (indeterminate : GpsUtcTime) (d : IDecoder) :
  start (fst (new indeterminate)) (snd (new indeterminate))
  = NullDeref (snd (new indeterminate)
               ++ [ALOG LOG_INFO "Start navigation"; acquireWakelock;
                   requestUtcTime])
  /\ start (set_decoder (Some d) (fst (new indeterminate)))
           (snd (new indeterminate))
     = NullDeref (snd (new indeterminate)
                  ++ [ALOG LOG_INFO "Start navigation"; acquireWakelock;
                      requestUtcTime; decoder_start d]).
Proof.
  split.
  - apply start_null_decoder. reflexivity.
  - apply start_null_stream; reflexivity.
Qed.

(** ** Publishing a fix *)

(** C2.  [update] leaves the device as it is and invokes the
    [locationUpdate] signal with the in-progress fix exactly when
    [locationValidity] holds, that is when the latitude/longitude flag is
    set.  With [sendLocationUpdate] connected, as the constructor connects
    it, the fix reaches [sendLocationUpdate] if and only if the flag is set;
    a fix without valid latitude/longitude produces no call at all,
    whatever its other flags are, and stays in the device unchanged. *)
Theorem update_publishes_iff_location_valid (self : t) (tr : Trace) :
  In slot_sendLocationUpdate (locationUpdate self) ->
  exists new_calls : Trace,
    update self tr = Returns tt self (tr ++ new_calls)
    /\ new_calls
       = (if Location.locationValidity (location self)
          then Signal.emit (invoke_location (location self))
                           (locationUpdate self)
          else [])
    /\ Location.locationValidity (location self)
       = Location.hasLatLong (location self)
    /\ (In (sendLocationUpdate (location self)) new_calls
        <-> Location.hasLatLong (location self) = true)
    /\ (Location.hasLatLong (location self) = false ->
        new_calls = []
        /\ published_locations (tr ++ new_calls) = published_locations tr).
Proof.
  intros Hslot. unfold update, bind, this, emit, ret.
  unfold Location.locationValidity.
  destruct (Location.hasLatLong (location self)) eqn:Hvalid.
  - eexists. split; [reflexivity|]. split; [reflexivity|].
    split; [reflexivity|]. split.
    + split; [reflexivity|]. intros _. unfold Signal.emit.
      apply in_map_iff. exists slot_sendLocationUpdate. split; auto.
    + discriminate.
  - exists []. rewrite app_nil_r. split; [reflexivity|].
    split; [reflexivity|]. split; [reflexivity|]. split.
    + split; [intros []|discriminate].
    + intros _. split; reflexivity.
Qed.

Lemma update_publishes_iff_location_valid_witness :
  (exists new_calls : Trace,
      update (set_location partial_fix attached_device) []
      = Returns tt (set_location partial_fix attached_device)
                ([] ++ new_calls)
      /\ new_calls = [])
  /\ (exists new_calls : Trace,
         update (set_location position_fix attached_device) []
         = Returns tt (set_location position_fix attached_device)
                   ([] ++ new_calls)
         /\ In (sendLocationUpdate position_fix) new_calls).
Proof.
  split.
  - destruct (update_publishes_iff_location_valid
                (set_location partial_fix attached_device) [])
      as (new_calls & Hrun & _ & _ & _ & Hnone).
    + simpl. left. reflexivity.
    + exists new_calls. split; [exact Hrun|].
      apply Hnone. reflexivity.
  - destruct (update_publishes_iff_location_valid
                (set_location position_fix attached_device) [])
      as (new_calls & Hrun & _ & _ & Hiff & _).
    + simpl. left. reflexivity.
    + exists new_calls. split; [exact Hrun|].
      apply Hiff. reflexivity.
Defined.

(** ** No Idle/Navigating guard *)

(** C3 (counterexample).  On a device with both objects attached and an
    empty trace (Idle), [stop] returns 0 but is no no-op: it stops the
    stream reading, stops the decoder and releases the wake lock.  After a
    first [start] (Navigating), a second [start] returns 0, no failure
    code, and acquires the wake lock a second time. *)
Lemma stop_idle_start_navigating_counterexample :
  (nav_state [] = Idle
   /\ stop attached_device []
      = Returns 0 attached_device
          (stop_calls (StreamAt 1) (DecoderAt 2))
   /\ stop attached_device [] <> Returns 0 attached_device [])
  /\ (start attached_device []
      = Returns 0 attached_device (start_calls (DecoderAt 2) (StreamAt 1))
      /\ nav_state (start_calls (DecoderAt 2) (StreamAt 1)) = Navigating
      /\ start attached_device (start_calls (DecoderAt 2) (StreamAt 1))
         = Returns 0 attached_device
             (start_calls (DecoderAt 2) (StreamAt 1)
              ++ start_calls (DecoderAt 2) (StreamAt 1))
      /\ wakelock_acquisitions
           (start_calls (DecoderAt 2) (StreamAt 1)
            ++ start_calls (DecoderAt 2) (StreamAt 1)) = 2%nat
      /\ ~ (exists (rc : Z) (tr' : Trace),
               rc <> 0
               /\ start attached_device
                    (start_calls (DecoderAt 2) (StreamAt 1))
                  = Returns rc attached_device tr')).
Proof.
  split.
  - split; [reflexivity|]. split; [reflexivity|].
    intros H. discriminate H.
  - split; [reflexivity|]. split; [reflexivity|]. split; [reflexivity|].
    split; [reflexivity|].
    intros (rc & tr' & Hrc & H). apply Hrc.
    inversion H. reflexivity.
Qed.

(** C3 (amended).  The device keeps no Idle/Navigating state.  With both
    objects attached, in whatever state the trace so far leaves it, [stop]
    returns 0, leaves the device's fields unchanged and issues its three
    calls, and [start] returns 0, leaves the fields unchanged and issues
    its four calls, so that the wake lock is acquired once more. *)
Theorem stop_and_start_are_unguarded
  (self : t) (s : IStream) (d : IDecoder) (tr : Trace) (st : NavState) :
  stream self = Some s -> decoder self = Some d -> nav_state tr = st ->
  stop self tr = Returns 0 self (tr ++ stop_calls s d)
  /\ side_effects (tr ++ stop_calls s d)
     = side_effects tr
       ++ [stream_stopReading s; decoder_stop d; releaseWakelock]
  /\ start self tr = Returns 0 self (tr ++ start_calls d s)
  /\ wakelock_acquisitions (tr ++ start_calls d s)
     = S (wakelock_acquisitions tr).
Proof.
  intros Hs Hd _. split; [apply stop_attached; assumption|].
  split; [rewrite side_effects_app; reflexivity|].
  split; [apply start_attached; assumption|].
  rewrite wakelock_acquisitions_app.
  change (wakelock_acquisitions (start_calls d s)) with 1%nat.
  apply Nat.add_1_r.
Qed.

Lemma stop_and_start_are_unguarded_witness :
  stop attached_device []
  = Returns 0 attached_device ([] ++ stop_calls (StreamAt 1) (DecoderAt 2))
  /\ start attached_device (start_calls (DecoderAt 2) (StreamAt 1))
     = Returns 0 attached_device
         (start_calls (DecoderAt 2) (StreamAt 1)
          ++ start_calls (DecoderAt 2) (StreamAt 1)).
Proof.
  split.
  - apply (stop_and_start_are_unguarded attached_device (StreamAt 1)
             (DecoderAt 2) [] Idle); reflexivity.
  - apply (stop_and_start_are_unguarded attached_device (StreamAt 1)
             (DecoderAt 2) (start_calls (DecoderAt 2) (StreamAt 1))
             Navigating); reflexivity.
Defined.

(** ** The order of side effects *)

(** C4.  With the stream and the decoder attached, [start] returns 0 and
    its calls are, in this order and after its log line: acquire the wake
    lock, request the UTC time, start the decoder, start the stream
    reading.  Nothing else is called, the device's fields are unchanged and
    the device is Navigating afterwards. *)
Theorem start_side_effects_in_order
  (self : t) (s : IStream) (d : IDecoder) (tr : Trace) :
  stream self = Some s -> decoder self = Some d ->
  exists tr' : Trace,
    start self tr = Returns 0 self tr'
    /\ tr' = tr ++ [ALOG LOG_INFO "Start navigation"; acquireWakelock;
                    requestUtcTime; decoder_start d; stream_startReading s]
    /\ side_effects tr'
       = side_effects tr
         ++ [acquireWakelock; requestUtcTime; decoder_start d;
             stream_startReading s]
    /\ nav_state tr' = Navigating.
Proof.
  intros Hs Hd. exists (tr ++ start_calls d s).
  split; [apply start_attached; assumption|]. split; [reflexivity|].
  split.
  - rewrite side_effects_app. reflexivity.
  - rewrite nav_state_app. reflexivity.
Qed.

Lemma start_side_effects_in_order_witness :
  exists tr' : Trace,
    start attached_device [] = Returns 0 attached_device tr'
    /\ tr' = [] ++ [ALOG LOG_INFO "Start navigation"; acquireWakelock;
                    requestUtcTime; decoder_start (DecoderAt 2);
                    stream_startReading (StreamAt 1)]
    /\ side_effects tr'
       = side_effects []
         ++ [acquireWakelock; requestUtcTime; decoder_start (DecoderAt 2);
             stream_startReading (StreamAt 1)]
    /\ nav_state tr' = Navigating.
Proof.
  apply (start_side_effects_in_order attached_device (StreamAt 1)
           (DecoderAt 2) []); reflexivity.
Defined.

(** C5.  With the stream and the decoder attached, [stop] returns 0 and its
    calls are, in this order and after its log line: stop the stream
    reading, stop the decoder, release the wake lock.  Nothing else is
    called, the device's fields are unchanged and the device is Idle
    afterwards. *)
Theorem stop_side_effects_in_order
  (self : t) (s : IStream) (d : IDecoder) (tr : Trace) :
  stream self = Some s -> decoder self = Some d ->
  exists tr' : Trace,
    stop self tr = Returns 0 self tr'
    /\ tr' = tr ++ [ALOG LOG_INFO "Stop navigation"; stream_stopReading s;
                    decoder_stop d; releaseWakelock]
    /\ side_effects tr'
       = side_effects tr
         ++ [stream_stopReading s; decoder_stop d; releaseWakelock]
    /\ nav_state tr' = Idle.
Proof.
  intros Hs Hd. exists (tr ++ stop_calls s d).
  split; [apply stop_attached; assumption|]. split; [reflexivity|].
  split.
  - rewrite side_effects_app. reflexivity.
  - rewrite nav_state_app. reflexivity.
Qed.

Lemma stop_side_effects_in_order_witness :
  exists tr' : Trace,
    stop attached_device (start_calls (DecoderAt 2) (StreamAt 1))
    = Returns 0 attached_device tr'
    /\ tr' = start_calls (DecoderAt 2) (StreamAt 1)
             ++ [ALOG LOG_INFO "Stop navigation";
                 stream_stopReading (StreamAt 1); decoder_stop (DecoderAt 2);
                 releaseWakelock]
    /\ side_effects tr'
       = side_effects (start_calls (DecoderAt 2) (StreamAt 1))
         ++ [stream_stopReading (StreamAt 1); decoder_stop (DecoderAt 2);
             releaseWakelock]
    /\ nav_state tr' = Idle.
Proof.
  apply (stop_side_effects_in_order attached_device (StreamAt 1)
           (DecoderAt 2) (start_calls (DecoderAt 2) (StreamAt 1)));
    reflexivity.
Defined.

(** ** Connecting the stream to the decoder *)

(** C6.  [connectStreamToDecoder] always returns and never changes the
    device.  It makes exactly one call: an error log line when the stream
    is unset, another error log line when the stream is set and the decoder
    is not, and otherwise the connection of the stream's new-bytes signal
    to the decoder's [onNewBytes]. *)
Theorem connectStreamToDecoder_guards_null (self : t) (tr : Trace) :
  connectStreamToDecoder self tr
  = Returns tt self
      (tr ++ [match stream self, decoder self with
              | None, _ => ALOG LOG_ERROR "Stream isn't set, won't connect."
              | Some _, None =>
                  ALOG LOG_ERROR "Decoder isn't set, won't connect."
              | Some s, Some d => stream_onNewBytes_connect s d
              end])
  /\ (forall (s : IStream) (d : IDecoder),
         In (stream_onNewBytes_connect s d)
            (match connectStreamToDecoder self tr with
             | Returns _ _ tr' => skipn (List.length tr) tr'
             | NullDeref tr' => skipn (List.length tr) tr'
             end)
         <-> stream self = Some s /\ decoder self = Some d).
Proof.
  assert (Hskip : forall new_calls : Trace,
             skipn (List.length tr) (tr ++ new_calls) = new_calls).
  { intros new_calls. rewrite skipn_app, skipn_all, Nat.sub_diag.
    reflexivity. }
  unfold connectStreamToDecoder, bind, this, ALOGE, call.
  destruct (stream self) as [s0|], (decoder self) as [d0|];
    (split; [reflexivity|]); intros s d; rewrite Hskip; simpl;
    split; intros H;
    try (destruct H as [H|[]]; try discriminate H;
         inversion H; subst; split; reflexivity);
    destruct H as [H1 H2]; try discriminate H1; try discriminate H2.
  inversion H1; inversion H2; subst. left. reflexivity.
Qed.

(** ** Field independence *)

(** C7.  Invalidating a field clears that field's flag and leaves the flag
    and the stored value of every other field, and the timestamp, as they
    were.  The device's invalidate operation applies exactly that to its
    in-progress fix and touches nothing else: no call is made, and the
    stream, the decoder, the device timestamp and the signals are
    unchanged. *)
Theorem invalidate_field_independence
  (X Y : Location.Field) (self : t) (tr : Trace) :
  X <> Y ->
  Location.validity X (Location.invalidate X (location self)) = false
  /\ Location.validity Y (Location.invalidate X (location self))
     = Location.validity Y (location self)
  /\ Location.stored Y (Location.invalidate X (location self))
     = Location.stored Y (location self)
  /\ Location._timestamp (Location.invalidate X (location self))
     = Location._timestamp (location self)
  /\ invalidate X self tr
     = Returns tt
         (set_location (Location.invalidate X (location self)) self) tr
  /\ (forall (self' : t) (tr' : Trace),
         invalidate X self tr = Returns tt self' tr' ->
         tr' = tr
         /\ Location.validity Y (location self')
            = Location.validity Y (location self)
         /\ Location.stored Y (location self')
            = Location.stored Y (location self)
         /\ stream self' = stream self
         /\ decoder self' = decoder self
         /\ timestamp self' = timestamp self
         /\ onNmea self' = onNmea self
         /\ locationUpdate self' = locationUpdate self).
Proof.
  intros Hneq.
  assert (Hrun : invalidate X self tr
                 = Returns tt
                     (set_location (Location.invalidate X (location self))
                                   self) tr).
  { destruct X; reflexivity. }
  assert (Hflag : Location.validity Y (Location.invalidate X (location self))
                  = Location.validity Y (location self)).
  { destruct X, Y; try reflexivity; contradiction Hneq; reflexivity. }
  assert (Hval : Location.stored Y (Location.invalidate X (location self))
                 = Location.stored Y (location self)).
  { destruct X, Y; reflexivity. }
  split; [destruct X; reflexivity|].
  split; [exact Hflag|]. split; [exact Hval|].
  split; [destruct X; reflexivity|]. split; [exact Hrun|].
  intros self' tr' H. rewrite Hrun in H. inversion H; subst.
  simpl. repeat split; assumption.
Qed.

Lemma invalidate_field_independence_witness :
  Location.validity Location.Speed
    (Location.invalidate Location.Altitude
       (location (set_location partial_fix attached_device)))
  = true
  /\ invalidate Location.Altitude
       (set_location partial_fix attached_device) []
     = Returns tt
         (set_location
            (Location.invalidate Location.Altitude
               (location (set_location partial_fix attached_device)))
            (set_location partial_fix attached_device)) [].
Proof.
  assert (Hneq : Location.Altitude <> Location.Speed) by discriminate.
  destruct (invalidate_field_independence Location.Altitude Location.Speed
              (set_location partial_fix attached_device) [] Hneq)
    as (_ & Hflag & _ & _ & Hrun & _).
  split; [rewrite Hflag; reflexivity | exact Hrun].
Defined.

(** ** NMEA pass-through *)

(** C8.  [emitNmea] always returns, leaves the device unchanged and invokes
    the [onNmea] signal at once with the device timestamp and the sentence.
    The calls made are the same whatever the in-progress fix is.  With
    [sendNmea] connected the sentence reaches it, and on every device
    reachable from the constructor exactly one (timestamp, sentence) pair
    is handed to [sendNmea]. *)
Theorem emitNmea_publishes_unconditionally
  (self : t) (nmea : NmeaMessage) (tr : Trace) :
  emitNmea nmea self tr
  = Returns tt self
      (tr ++ Signal.emit (invoke_nmea (timestamp self) nmea) (onNmea self))
  /\ (forall loc : Location.t,
         emitNmea nmea (set_location loc self) tr
         = Returns tt (set_location loc self)
             (tr ++ Signal.emit (invoke_nmea (timestamp self) nmea)
                                (onNmea self)))
  /\ (In slot_sendNmea (onNmea self) ->
      In (sendNmea (timestamp self) nmea)
         (Signal.emit (invoke_nmea (timestamp self) nmea) (onNmea self)))
  /\ (reachable self tr ->
      published_nmea
        (tr ++ Signal.emit (invoke_nmea (timestamp self) nmea) (onNmea self))
      = published_nmea tr ++ [(timestamp self, nmea)]).
Proof.
  split; [reflexivity|]. split; [intros loc; reflexivity|]. split.
  - intros Hslot. unfold Signal.emit. apply in_map_iff.
    exists slot_sendNmea. split; [reflexivity | exact Hslot].
  - intros Hreach. apply reachable_signals in Hreach.
    destruct Hreach as [Hnmea _]. rewrite Hnmea, published_nmea_app.
    reflexivity.
Qed.

Lemma emitNmea_publishes_unconditionally_witness :
  published_nmea
    (snd (new 77)
     ++ Signal.emit (invoke_nmea (timestamp (fst (new 77))) sample_nmea)
                    (onNmea (fst (new 77))))
  = published_nmea (snd (new 77)) ++ [(77, sample_nmea)].
Proof.
  apply (emitNmea_publishes_unconditionally (fst (new 77)) sample_nmea
           (snd (new 77))).
  exists 77, []. reflexivity.
Defined.

(** ** Attachment and null pointers *)

(** C9.  [setStream] and [setDecoder] store their argument whatever it is;
    for [nullptr] they only add a warning to the log.  [start] and [stop]
    have no null guard: each returns exactly when both stored pointers are
    non-null, and dereferences a null pointer otherwise. *)
Theorem attachment_is_unchecked (self : t) (tr : Trace) :
  (forall s : option IStream,
      setStream s self tr
      = Returns tt (set_stream s self)
          (tr ++ match s with
                 | None => [ALOG LOG_WARN "Setting stream to nullptr"]
                 | Some _ => []
                 end))
  /\ (forall d : option IDecoder,
         setDecoder d self tr
         = Returns tt (set_decoder d self)
             (tr ++ match d with
                    | None => [ALOG LOG_WARN "Setting decoder to nullptr"]
                    | Some _ => []
                    end))
  /\ (forall s : option IStream, stream (set_stream s self) = s)
  /\ (forall d : option IDecoder, decoder (set_decoder d self) = d)
  /\ ((exists (rc : Z) (self' : t) (tr' : Trace),
          start self tr = Returns rc self' tr')
      <-> stream self <> nullptr /\ decoder self <> nullptr)
  /\ ((exists tr' : Trace, start self tr = NullDeref tr')
      <-> stream self = nullptr \/ decoder self = nullptr)
  /\ ((exists (rc : Z) (self' : t) (tr' : Trace),
          stop self tr = Returns rc self' tr')
      <-> stream self <> nullptr /\ decoder self <> nullptr)
  /\ ((exists tr' : Trace, stop self tr = NullDeref tr')
      <-> stream self = nullptr \/ decoder self = nullptr).
Proof.
  unfold nullptr.
  split.
  { intros [s|]; unfold_members; [rewrite app_nil_r|]; reflexivity. }
  split.
  { intros [d|]; unfold_members; [rewrite app_nil_r|]; reflexivity. }
  split; [intros s; reflexivity|]. split; [intros d; reflexivity|].
  split; [apply start_returns_iff|]. split; [apply start_faults_iff|].
  split; [apply stop_returns_iff | apply stop_faults_iff].
Qed.

(** ** The timestamp *)

(** C10.  [setTimestamp t] makes no call and stores [t] both in the
    device's own timestamp and in the in-progress fix, whose flags and
    stored field values stay as they were; the stream, the decoder and the
    signals are unchanged.  After it, and after any further calls among
    which there is no [setTimestamp], [emitNmea] invokes [onNmea] with [t],
    whatever timestamp the sentence itself carries. *)
Theorem setTimestamp_then_emitNmea
  (t0 : GpsUtcTime) (self self' : t) (tr tr' : Trace) (cs : list Call)
  (nmea : NmeaMessage) :
  forallb (fun c => negb (is_setTimestamp c)) cs = true ->
  run (call_setTimestamp t0 :: cs) self tr = Returns tt self' tr' ->
  setTimestamp t0 self tr
  = Returns tt
      (set_location (snd (Location.timestamp t0 (location self)))
                    (set_timestamp t0 self)) tr
  /\ (forall after : t,
         setTimestamp t0 self tr = Returns tt after tr ->
         timestamp after = t0
         /\ Location._timestamp (location after) = t0
         /\ (forall f : Location.Field,
                Location.validity f (location after)
                = Location.validity f (location self)
                /\ Location.stored f (location after)
                   = Location.stored f (location self))
         /\ stream after = stream self
         /\ decoder after = decoder self
         /\ onNmea after = onNmea self
         /\ locationUpdate after = locationUpdate self)
  /\ timestamp self' = t0
  /\ emitNmea nmea self' tr'
     = Returns tt self' (tr' ++ Signal.emit (invoke_nmea t0 nmea)
                                            (onNmea self')).
Proof.
  intros Hcs Hrun.
  split; [reflexivity|]. split.
  { intros after H. inversion H; subst. simpl.
    split; [reflexivity|]. split; [reflexivity|].
    split; [intros f; destruct f; split; reflexivity|].
    repeat split. }
  simpl in Hrun. unfold bind at 1 in Hrun.
  change (setTimestamp t0 self tr)
    with (Returns tt
            (set_location (snd (Location.timestamp t0 (location self)))
                          (set_timestamp t0 self)) tr) in Hrun.
  apply (run_timestamp _ _ _ _ _ _ Hcs) in Hrun. simpl in Hrun.
  split; [exact Hrun|].
  unfold emitNmea, bind, this, emit. rewrite Hrun. reflexivity.
Qed.

Lemma setTimestamp_then_emitNmea_witness :
  emitNmea sample_nmea
    (set_location (snd (Location.timestamp 1000 Location.new))
                  (set_timestamp 1000 attached_device))
    (start_calls (DecoderAt 2) (StreamAt 1))
  = Returns tt
      (set_location (snd (Location.timestamp 1000 Location.new))
                    (set_timestamp 1000 attached_device))
      (start_calls (DecoderAt 2) (StreamAt 1)
       ++ [sendNmea 1000 sample_nmea]).
Proof.
  apply (setTimestamp_then_emitNmea 1000 attached_device
           (set_location (snd (Location.timestamp 1000 Location.new))
                         (set_timestamp 1000 attached_device))
           [] (start_calls (DecoderAt 2) (StreamAt 1))
           [call_start; call_update; call_invalidateSpeed] sample_nmea);
    reflexivity.
Defined.

(** * Sequences of calls *)

Lemma run_cons (c : Call) (cs : list Call) (self : t) (tr : Trace) :
  run (c :: cs) self tr
  = match exec c self tr with
    | Returns _ self1 tr1 => run cs self1 tr1
    | NullDeref tr1 => NullDeref tr1
    end.
Proof. reflexivity. Qed.

(** Induction over a run that returned: peel the first call. *)
Ltac first_call H c self tr :=
  let v := fresh "v" in
  let self1 := fresh "self1" in
  let tr1 := fresh "tr1" in
  let E := fresh "E" in
  rewrite run_cons in H;
  destruct (exec c self tr) as [v self1 tr1|tr1] eqn:E;
  [|discriminate H].

(** ** Calls that only write the fix *)

Lemma exec_data_call (c : Call) (self : t) (tr : Trace) :
  is_data_call c = true ->
  exists self' : t,
    exec c self tr = Returns tt self' tr
    /\ stream self' = stream self /\ decoder self' = decoder self
    /\ onNmea self' = onNmea self
    /\ locationUpdate self' = locationUpdate self.
Proof.
  destruct c; simpl; intros Hc; try discriminate Hc;
    eexists; (split; [reflexivity|]); simpl; auto.
Qed.

(** X1.  A sequence made only of [setTimestamp], [invalidate...] and
    [set...] calls always returns, whether or not a stream and a decoder
    are attached; it makes no call on any collaborator (the trace is
    unchanged) and leaves the stream, the decoder and both signals as they
    were. *)
Theorem data_calls_are_silent (cs : list Call) (self : t) (tr : Trace) :
  forallb is_data_call cs = true ->
  exists self' : t,
    run cs self tr = Returns tt self' tr
    /\ stream self' = stream self /\ decoder self' = decoder self
    /\ onNmea self' = onNmea self
    /\ locationUpdate self' = locationUpdate self.
Proof.
  revert self. induction cs as [|c cs IH]; intros self Hcs.
  - exists self. repeat split.
  - simpl in Hcs. apply andb_true_iff in Hcs. destruct Hcs as [Hc Hcs].
    destruct (exec_data_call c self tr Hc)
      as (self1 & E & Hs & Hd & Hn & Hl).
    destruct (IH self1 Hcs) as (self' & Hrun & Hs' & Hd' & Hn' & Hl').
    exists self'. rewrite run_cons, E.
    split; [exact Hrun|]. repeat split; congruence.
Qed.

Lemma data_calls_are_silent_witness :
  exists self' : t,
    run [call_setTimestamp 1000; call_setAltitude 545.5%float;
         call_invalidateSpeed; call_setLocation 48.125%float 11.5%float]
        (fst (new 77)) (snd (new 77))
    = Returns tt self' (snd (new 77))
    /\ stream self' = stream (fst (new 77))
    /\ decoder self' = decoder (fst (new 77))
    /\ onNmea self' = onNmea (fst (new 77))
    /\ locationUpdate self' = locationUpdate (fst (new 77)).
Proof.
  apply (data_calls_are_silent
           [call_setTimestamp 1000; call_setAltitude 545.5%float;
            call_invalidateSpeed; call_setLocation 48.125%float 11.5%float]
           (fst (new 77)) (snd (new 77))).
  reflexivity.
Defined.

(** ** Calls that never write the fix *)

Lemma exec_keeps_fix
  (c : Call) (self self' : t) (tr tr' : Trace) (u : unit) :
  is_data_call c = false ->
  exec c self tr = Returns u self' tr' ->
  location self' = location self /\ timestamp self' = timestamp self.
Proof.
  destruct c; simpl; intros Hc; try discriminate Hc;
    unfold_members; intros H; outcome_cases; simpl; auto.
Qed.

(** X2.  Attaching, connecting, starting, stopping and publishing never
    write the in-progress fix or the device timestamp: after any returned
    sequence of [connectStreamToDecoder], [setStream], [setDecoder],
    [update], [start], [stop] and [emitNmea] calls both are what they were.
    In particular [update] does not consume the fix: a later [update]
    hands the same fix to the slots again, under the same condition. *)
Theorem publishing_keeps_the_fix
  (cs : list Call) (self self' : t) (tr tr' : Trace) :
  forallb (fun c => negb (is_data_call c)) cs = true ->
  run cs self tr = Returns tt self' tr' ->
  location self' = location self
  /\ timestamp self' = timestamp self
  /\ update self' tr'
     = Returns tt self'
         (if Location.locationValidity (location self)
          then tr' ++ Signal.emit (invoke_location (location self))
                                  (locationUpdate self)
          else tr').
Proof.
  intros Hcs Hrun.
  assert (Hfix : location self' = location self
                 /\ timestamp self' = timestamp self).
  { revert self tr Hcs Hrun.
    induction cs as [|c cs IH]; intros self tr Hcs Hrun.
    - inversion Hrun; subst. split; reflexivity.
    - simpl in Hcs. apply andb_true_iff in Hcs. destruct Hcs as [Hc Hcs].
      apply negb_true_iff in Hc.
      first_call Hrun c self tr.
      apply (exec_keeps_fix _ _ _ _ _ _ Hc) in E.
      destruct (IH self1 tr1 Hcs Hrun) as [H1 H2].
      destruct E as [E1 E2]. split; congruence. }
  destruct Hfix as [Hloc Hts]. split; [exact Hloc|]. split; [exact Hts|].
  destruct (run_signals cs self self' tr tr' tt Hrun) as [_ Hsig].
  unfold update, bind, this, emit, ret. rewrite Hloc, Hsig.
  destruct (Location.locationValidity (location self)); reflexivity.
Qed.

Lemma publishing_keeps_the_fix_witness :
  update (set_location position_fix attached_device)
    ((start_calls (DecoderAt 2) (StreamAt 1)
      ++ [sendLocationUpdate position_fix])
     ++ [sendNmea 0 sample_nmea])
  = Returns tt (set_location position_fix attached_device)
      (((start_calls (DecoderAt 2) (StreamAt 1)
         ++ [sendLocationUpdate position_fix])
        ++ [sendNmea 0 sample_nmea])
       ++ [sendLocationUpdate position_fix]).
Proof.
  apply (publishing_keeps_the_fix
           [call_start; call_update; call_emitNmea sample_nmea]
           (set_location position_fix attached_device)
           (set_location position_fix attached_device)
           []
           ((start_calls (DecoderAt 2) (StreamAt 1)
             ++ [sendLocationUpdate position_fix])
            ++ [sendNmea 0 sample_nmea]));
    reflexivity.
Defined.

(** ** Null-dereference freedom *)

Lemma exec_attached (c : Call) (self : t) (tr : Trace) :
  stream self <> None -> decoder self <> None ->
  keeps_attached c = true ->
  exists (self' : t) (tr' : Trace),
    exec c self tr = Returns tt self' tr'
    /\ stream self' <> None /\ decoder self' <> None.
Proof.
  intros Hs Hd Hc.
  destruct (stream self) as [s|] eqn:Es; [clear Hs|contradiction Hs; auto].
  destruct (decoder self) as [d|] eqn:Ed; [clear Hd|contradiction Hd; auto].
  destruct c as [| [s'|] | [d'|] | | | | | | | | | | | | | | |];
    simpl in Hc; try discriminate Hc; unfold_members;
    repeat (progress (rewrite ?Es, ?Ed; simpl));
    try (destruct (Location.locationValidity (location self)));
    eexists; eexists; (split; [reflexivity|]); simpl;
    rewrite ?Es, ?Ed; split; discriminate.
Qed.

(** X3.  From a device whose stream and decoder are both non-null, a
    sequence of calls in which no [setStream] or [setDecoder] passes
    [nullptr] never dereferences a null pointer: it returns, and the
    stream and the decoder are still non-null at the end. *)
Theorem attached_runs_never_fault (cs : list Call) (self : t) (tr : Trace) :
  stream self <> None -> decoder self <> None ->
  forallb keeps_attached cs = true ->
  exists (self' : t) (tr' : Trace),
    run cs self tr = Returns tt self' tr'
    /\ stream self' <> None /\ decoder self' <> None.
Proof.
  revert self tr. induction cs as [|c cs IH]; intros self tr Hs Hd Hcs.
  - exists self, tr. repeat split; assumption.
  - simpl in Hcs. apply andb_true_iff in Hcs. destruct Hcs as [Hc Hcs].
    destruct (exec_attached c self tr Hs Hd Hc)
      as (self1 & tr1 & E & Hs1 & Hd1).
    destruct (IH self1 tr1 Hs1 Hd1 Hcs) as (self' & tr' & Hrun & Hs' & Hd').
    exists self', tr'. rewrite run_cons, E. repeat split; assumption.
Qed.

Lemma attached_runs_never_fault_witness :
  exists (self' : t) (tr' : Trace),
    run [call_start; call_setStream (Some (StreamAt 3)); call_stop;
         call_connectStreamToDecoder; call_start]
        attached_device []
    = Returns tt self' tr'
    /\ stream self' <> None /\ decoder self' <> None.
Proof.
  apply (attached_runs_never_fault
           [call_start; call_setStream (Some (StreamAt 3)); call_stop;
            call_connectStreamToDecoder; call_start]
           attached_device []).
  - discriminate.
  - discriminate.
  - reflexivity.
Defined.

(** ** The attached objects *)

Lemma last_stream_cons (c : Call) (cs : list Call) (s0 : option IStream) :
  last_stream (c :: cs) s0 = last_stream cs (last_stream [c] s0).
Proof. destruct c; reflexivity. Qed.

Lemma last_decoder_cons (c : Call) (cs : list Call) (d0 : option IDecoder) :
  last_decoder (c :: cs) d0 = last_decoder cs (last_decoder [c] d0).
Proof. destruct c; reflexivity. Qed.

Lemma exec_attachment
  (c : Call) (self self' : t) (tr tr' : Trace) (u : unit) :
  exec c self tr = Returns u self' tr' ->
  stream self' = last_stream [c] (stream self)
  /\ decoder self' = last_decoder [c] (decoder self).
Proof.
  destruct c; unfold_members; intros H; outcome_cases; simpl; auto.
Qed.

Lemma run_attachment (cs : list Call) :
  forall (self self' : t) (tr tr' : Trace),
    run cs self tr = Returns tt self' tr' ->
    stream self' = last_stream cs (stream self)
    /\ decoder self' = last_decoder cs (decoder self).
Proof.
  induction cs as [|c cs IH]; intros self self' tr tr' Hrun.
  - inversion Hrun; subst. split; reflexivity.
  - first_call Hrun c self tr.
    apply exec_attachment in E. destruct E as [Es Ed].
    destruct (IH _ _ _ _ Hrun) as [Hs Hd].
    rewrite last_stream_cons, last_decoder_cons, <- Es, <- Ed.
    split; assumption.
Qed.

(** X4.  After any returned sequence of calls the stream and the decoder
    are the arguments of the last [setStream] and of the last [setDecoder]
    of the sequence (or what they were before it, when there is none).
    [start] then returns exactly when both of these are non-null, and in
    that case it is these two objects that [connectStreamToDecoder]
    connects and that [start] starts. *)
Theorem last_attachment_wins
  (cs : list Call) (self self' : t) (tr tr' : Trace) :
  run cs self tr = Returns tt self' tr' ->
  stream self' = last_stream cs (stream self)
  /\ decoder self' = last_decoder cs (decoder self)
  /\ ((exists (rc : Z) (self'' : t) (tr'' : Trace),
          start self' tr' = Returns rc self'' tr'')
      <-> last_stream cs (stream self) <> None
          /\ last_decoder cs (decoder self) <> None)
  /\ (forall (s : IStream) (d : IDecoder),
         last_stream cs (stream self) = Some s ->
         last_decoder cs (decoder self) = Some d ->
         connectStreamToDecoder self' tr'
         = Returns tt self' (tr' ++ [stream_onNewBytes_connect s d])
         /\ start self' tr' = Returns 0 self' (tr' ++ start_calls d s)).
Proof.
  intros Hrun. destruct (run_attachment cs _ _ _ _ Hrun) as [Hs Hd].
  split; [exact Hs|]. split; [exact Hd|]. split.
  - rewrite <- Hs, <- Hd. apply start_returns_iff.
  - intros s d Hls Hld. rewrite Hls in Hs. rewrite Hld in Hd. split.
    + unfold connectStreamToDecoder, bind, this, call.
      rewrite Hs, Hd. reflexivity.
    + apply start_attached; assumption.
Qed.

Lemma last_attachment_wins_witness :
  connectStreamToDecoder
    (set_decoder (Some (DecoderAt 9))
       (set_stream (Some (StreamAt 8))
          (set_stream None (fst (new 77)))))
    (snd (new 77) ++ [ALOG LOG_WARN "Setting stream to nullptr"])
  = Returns tt
      (set_decoder (Some (DecoderAt 9))
         (set_stream (Some (StreamAt 8))
            (set_stream None (fst (new 77)))))
      ((snd (new 77) ++ [ALOG LOG_WARN "Setting stream to nullptr"])
       ++ [stream_onNewBytes_connect (StreamAt 8) (DecoderAt 9)]).
Proof.
  apply (last_attachment_wins
           [call_setStream None; call_setStream (Some (StreamAt 8));
            call_setDecoder (Some (DecoderAt 9))]
           (fst (new 77))
           (set_decoder (Some (DecoderAt 9))
              (set_stream (Some (StreamAt 8))
                 (set_stream None (fst (new 77)))))
           (snd (new 77))
           (snd (new 77) ++ [ALOG LOG_WARN "Setting stream to nullptr"]));
    reflexivity.
Defined.

(** ** The wake lock *)

Lemma wakelock_releases_app (tr1 tr2 : Trace) :
  wakelock_releases (tr1 ++ tr2)
  = (wakelock_releases tr1 + wakelock_releases tr2)%nat.
Proof.
  unfold wakelock_releases. rewrite filter_app. apply length_app.
Qed.






(** ** What reaches the slots of locationUpdate *)







(** ** What reaches sendNmea *)

Lemma published_nmea_emit_location
  (l : Location.t) (sig : Signal.t LocationSlot) :
  published_nmea (Signal.emit (invoke_location l) sig) = [].
Proof.
  induction sig as [|[|id] sig IH]; simpl; [reflexivity| |]; exact IH.
Qed.

Lemma nmea_log_cons (c : Call) (cs : list Call) (t0 : GpsUtcTime) :
  nmea_log (c :: cs) t0 = nmea_log [c] t0 ++ nmea_log cs (timestamp_after c t0).
Proof. destruct c; reflexivity. Qed.

Lemma exec_nmea
  (c : Call) (self self' : t) (tr tr' : Trace) (u : unit) :
  onNmea self = [slot_sendNmea] ->
  exec c self tr = Returns u self' tr' ->
  published_nmea tr' = published_nmea tr ++ nmea_log [c] (timestamp self)
  /\ timestamp self' = timestamp_after c (timestamp self).
Proof.
  intros Hn.
  destruct c; unfold_members; intros H; outcome_cases;
    rewrite ?published_nmea_app, ?published_nmea_emit_location, ?Hn;
    simpl; rewrite ?app_nil_r; split; reflexivity.
Qed.

(** X7.  On a device whose [onNmea] signal has [sendNmea] as its only slot,
    as the constructor leaves it, any returned sequence of calls hands to
    [sendNmea] exactly the sentences passed to [emitNmea], once each and in
    call order, each stamped with the argument of the last [setTimestamp]
    made before it (or with the timestamp the device had at the start).
    No other call reaches [sendNmea]. *)
Theorem nmea_pass_through
  (cs : list Call) (self self' : t) (tr tr' : Trace) :
  onNmea self = [slot_sendNmea] ->
  run cs self tr = Returns tt self' tr' ->
  published_nmea tr' = published_nmea tr ++ nmea_log cs (timestamp self).
Proof.
  revert self tr. induction cs as [|c cs IH]; intros self tr Hn Hrun.
  - inversion Hrun; subst. simpl. rewrite app_nil_r. reflexivity.
  - first_call Hrun c self tr.
    destruct (exec_signals _ _ _ _ _ _ E) as [Hn1 _].
    destruct (exec_nmea _ _ _ _ _ _ Hn E) as [Hp Hts].
    rewrite Hn in Hn1.
    rewrite (nmea_log_cons c cs), (IH _ _ Hn1 Hrun), Hp, Hts, app_assoc.
    reflexivity.
Qed.

Lemma nmea_pass_through_witness :
  published_nmea
    ([sendNmea 0 sample_nmea]
     ++ [sendNmea 1000 (mkNmea "$GPRMC" 5); sendNmea 2000 sample_nmea])
  = published_nmea [sendNmea 0 sample_nmea]
    ++ nmea_log
         [call_setTimestamp 1000; call_emitNmea (mkNmea "$GPRMC" 5);
          call_update; call_setTimestamp 2000; call_emitNmea sample_nmea]
         (timestamp attached_device).
Proof.
  apply (nmea_pass_through
           [call_setTimestamp 1000; call_emitNmea (mkNmea "$GPRMC" 5);
            call_update; call_setTimestamp 2000; call_emitNmea sample_nmea]
           attached_device
           (set_location (snd (Location.timestamp 2000
                                 (snd (Location.timestamp 1000 Location.new))))
              (set_timestamp 2000
                 (set_location (snd (Location.timestamp 1000 Location.new))
                    (set_timestamp 1000 attached_device))))
           [sendNmea 0 sample_nmea]);
    reflexivity.
Defined.

(** ** Connecting more than once *)

(** X8.  [connectStreamToDecoder] keeps no record of a connection already
    made: with the stream and the decoder attached, calling it [n] times in
    a row issues [n] identical connections of the stream's new-bytes signal
    to the decoder, and leaves the device unchanged. *)
Theorem connectStreamToDecoder_repeats
  (n : nat) (self : t) (s : IStream) (d : IDecoder) (tr : Trace) :
  stream self = Some s -> decoder self = Some d ->
  run (repeat call_connectStreamToDecoder n) self tr
  = Returns tt self (tr ++ repeat (stream_onNewBytes_connect s d) n).
Proof.
  intros Hs Hd. revert tr. induction n as [|n IH]; intros tr.
  - simpl. rewrite app_nil_r. reflexivity.
  - simpl repeat. rewrite run_cons.
    simpl exec. unfold connectStreamToDecoder, bind, this, call.
    rewrite Hs, Hd, IH, <- app_assoc. reflexivity.
Qed.

Lemma connectStreamToDecoder_repeats_witness :
  run [call_connectStreamToDecoder; call_connectStreamToDecoder]
      attached_device []
  = Returns tt attached_device
      [stream_onNewBytes_connect (StreamAt 1) (DecoderAt 2);
       stream_onNewBytes_connect (StreamAt 1) (DecoderAt 2)].
Proof.
  apply (connectStreamToDecoder_repeats 2 attached_device (StreamAt 1)
           (DecoderAt 2) []); reflexivity.
Defined.

(** ** Where a null pointer can be dereferenced *)

Ltac count_new_calls Hcount :=
  rewrite ?(proj1 (Hcount _)), ?(proj2 (Hcount _));
  unfold wakelock_acquisitions, wakelock_releases; simpl; lia.

Lemma exec_without_lifecycle (c : Call) (self : t) (tr : Trace) :
  is_call_start c || is_call_stop c = false ->
  exists (self' : t) (tr' : Trace), exec c self tr = Returns tt self' tr'.
Proof.
  intros Hc.
  destruct (stream self) as [s|] eqn:Es;
    destruct (decoder self) as [d|] eqn:Ed;
    destruct (Location.locationValidity (location self)) eqn:Ev;
    destruct c as [| [s'|] | [d'|] | | | | | | | | | | | | | | |];
    simpl in Hc; try discriminate Hc; unfold_members;
    repeat (progress (rewrite ?Es, ?Ed, ?Ev; simpl));
    eexists; eexists; reflexivity.
Qed.

(** X9.  Only [start] and [stop] dereference the stream and decoder
    pointers: a sequence of calls with neither of them returns from any
    device, attached or not. *)
Theorem only_start_and_stop_can_fault
  (cs : list Call) (self : t) (tr : Trace) :
  forallb (fun c => negb (is_call_start c || is_call_stop c)) cs = true ->
  exists (self' : t) (tr' : Trace), run cs self tr = Returns tt self' tr'.
Proof.
  revert self tr. induction cs as [|c cs IH]; intros self tr Hcs.
  - exists self, tr. reflexivity.
  - simpl in Hcs. apply andb_true_iff in Hcs. destruct Hcs as [Hc Hcs].
    apply negb_true_iff in Hc.
    destruct (exec_without_lifecycle c self tr Hc) as (self1 & tr1 & E).
    destruct (IH self1 tr1 Hcs) as (self' & tr' & Hrun).
    exists self', tr'. rewrite run_cons, E. exact Hrun.
Qed.

Lemma only_start_and_stop_can_fault_witness :
  exists (self' : t) (tr' : Trace),
    run [call_connectStreamToDecoder; call_setDecoder None; call_update;
         call_emitNmea sample_nmea; call_setTimestamp 5; call_setSpeed
         (S754_finite false 3 (-1)); call_update]
        (fst (new 77)) (snd (new 77))
    = Returns tt self' tr'.
Proof.
  apply (only_start_and_stop_can_fault
           [call_connectStreamToDecoder; call_setDecoder None; call_update;
            call_emitNmea sample_nmea; call_setTimestamp 5; call_setSpeed
            (S754_finite false 3 (-1)); call_update]
           (fst (new 77)) (snd (new 77))).
  reflexivity.
Defined.

(** X10.  When the stream or the decoder is null, [start] stops at the null
    dereference after it has acquired the wake lock, which it does not
    release; [stop] stops at the null dereference before it releases the
    wake lock, and acquires nothing. *)
Theorem null_dereference_and_the_wakelock (self : t) (tr : Trace) :
  stream self = None \/ decoder self = None ->
  exists tr1 tr2 : Trace,
    start self tr = NullDeref tr1
    /\ wakelock_acquisitions tr1 = S (wakelock_acquisitions tr)
    /\ wakelock_releases tr1 = wakelock_releases tr
    /\ stop self tr = NullDeref tr2
    /\ wakelock_acquisitions tr2 = wakelock_acquisitions tr
    /\ wakelock_releases tr2 = wakelock_releases tr.
Proof.
  intros Hnull.
  assert (Hcount : forall new_calls : Trace,
             wakelock_acquisitions (tr ++ new_calls)
             = (wakelock_acquisitions tr
                + wakelock_acquisitions new_calls)%nat
             /\ wakelock_releases (tr ++ new_calls)
                = (wakelock_releases tr + wakelock_releases new_calls)%nat).
  { intros new_calls. split.
    - apply wakelock_acquisitions_app.
    - apply wakelock_releases_app. }
  destruct (stream self) as [s|] eqn:Hs;
    destruct (decoder self) as [d|] eqn:Hd;
    [destruct Hnull as [H|H]; discriminate H | | |].
  - rewrite (start_null_decoder self tr Hd).
    rewrite (stop_null_decoder self s tr Hs Hd).
    eexists; eexists. split; [reflexivity|].
    split; [count_new_calls Hcount|]. split; [count_new_calls Hcount|].
    split; [reflexivity|]. split; count_new_calls Hcount.
  - rewrite (start_null_stream self d tr Hd Hs).
    rewrite (stop_null_stream self tr Hs).
    eexists; eexists. split; [reflexivity|].
    split; [count_new_calls Hcount|]. split; [count_new_calls Hcount|].
    split; [reflexivity|]. split; count_new_calls Hcount.
  - rewrite (start_null_decoder self tr Hd).
    rewrite (stop_null_stream self tr Hs).
    eexists; eexists. split; [reflexivity|].
    split; [count_new_calls Hcount|]. split; [count_new_calls Hcount|].
    split; [reflexivity|]. split; count_new_calls Hcount.
Qed.

Lemma null_dereference_and_the_wakelock_witness :
  exists tr1 tr2 : Trace,
    start (set_stream None attached_device)
          (start_calls (DecoderAt 2) (StreamAt 1))
    = NullDeref tr1
    /\ wakelock_acquisitions tr1
       = S (wakelock_acquisitions (start_calls (DecoderAt 2) (StreamAt 1)))
    /\ wakelock_releases tr1
       = wakelock_releases (start_calls (DecoderAt 2) (StreamAt 1))
    /\ stop (set_stream None attached_device)
            (start_calls (DecoderAt 2) (StreamAt 1))
       = NullDeref tr2
    /\ wakelock_acquisitions tr2
       = wakelock_acquisitions (start_calls (DecoderAt 2) (StreamAt 1))
    /\ wakelock_releases tr2
       = wakelock_releases (start_calls (DecoderAt 2) (StreamAt 1)).
Proof.
  apply (null_dereference_and_the_wakelock
           (set_stream None attached_device)
           (start_calls (DecoderAt 2) (StreamAt 1))).
  left. reflexivity.
Defined.

(** ** The slots of the device's signals *)

(** X11.  No member function connects or disconnects a slot of [onNmea] or
    [locationUpdate]: on every device reached from the constructor through
    calls that returned, [sendNmea] is the only slot of [onNmea] and
    [sendLocationUpdate] the only slot of [locationUpdate].  So [update]
    makes at most one call, to [sendLocationUpdate] with the in-progress
    fix, and [emitNmea] makes exactly one, to [sendNmea]. *)
Theorem constructor_wiring_is_kept
  (self : t) (tr : Trace) (nmea : NmeaMessage) :
  reachable self tr ->
  onNmea self = [slot_sendNmea]
  /\ locationUpdate self = [slot_sendLocationUpdate]
  /\ update self tr
     = Returns tt self
         (if Location.locationValidity (location self)
          then tr ++ [sendLocationUpdate (location self)]
          else tr)
  /\ emitNmea nmea self tr
     = Returns tt self (tr ++ [sendNmea (timestamp self) nmea]).
Proof.
  intros Hreach. destruct (reachable_signals self tr Hreach) as [Hn Hl].
  split; [exact Hn|]. split; [exact Hl|].
  unfold update, emitNmea, bind, this, emit, ret. rewrite Hn, Hl.
  split; [|reflexivity].
  destruct (Location.locationValidity (location self)); reflexivity.
Qed.

Lemma constructor_wiring_is_kept_witness :
  onNmea (set_decoder (Some (DecoderAt 2)) (fst (new 77))) = [slot_sendNmea]
  /\ locationUpdate (set_decoder (Some (DecoderAt 2)) (fst (new 77)))
     = [slot_sendLocationUpdate]
  /\ update (set_decoder (Some (DecoderAt 2)) (fst (new 77)))
            (snd (new 77))
     = Returns tt (set_decoder (Some (DecoderAt 2)) (fst (new 77)))
         (if Location.locationValidity
               (location (set_decoder (Some (DecoderAt 2)) (fst (new 77))))
          then snd (new 77)
               ++ [sendLocationUpdate
                     (location
                        (set_decoder (Some (DecoderAt 2)) (fst (new 77))))]
          else snd (new 77))
  /\ emitNmea sample_nmea
       (set_decoder (Some (DecoderAt 2)) (fst (new 77))) (snd (new 77))
     = Returns tt (set_decoder (Some (DecoderAt 2)) (fst (new 77)))
         (snd (new 77)
          ++ [sendNmea
                (timestamp (set_decoder (Some (DecoderAt 2)) (fst (new 77))))
                sample_nmea]).
Proof.
  apply (constructor_wiring_is_kept
           (set_decoder (Some (DecoderAt 2)) (fst (new 77)))
           (snd (new 77)) sample_nmea).
  exists 77, [call_setDecoder (Some (DecoderAt 2))]. reflexivity.
Defined.
